(** * teams-ai (python): the activity-type literal set and the format runner

    Two source files are embedded here:

    - [python/packages/ai/teams/activity_type.py]: the alias
      [ActivityType = Literal[...]], a closed set of string literals;
    - [python/scripts/fmt.py]: the function [fmt], which walks the immediate
      children of [./packages] and runs [poetry run fmt] in every directory,
      raising on the first non-zero return code.

    [fmt] is effectful: it reads the file system, prints, starts child
    processes and may raise.  It is embedded in a small writer/error monad
    [IO] whose log is the list of observable events, over a [Host]: a
    [World] that fixes what the operating system answers when its calls
    succeed, together with the calls that fail on that host.  A [World] on
    its own stands for the host on which no call fails. *)

From Stdlib Require Import List String Ascii ZArith Bool Lia.
Import ListNotations.
Local Open Scope string_scope.
Local Open Scope list_scope.

(* ================================================================= *)
(** ** activity_type.py *)

Module ActivityTypes.

(** The arguments of [Literal[...]], in source order (what
    [typing.get_args(ActivityType)] returns). *)
Definition ActivityType : list string :=
  [ "message";
    "contactRelationUpdate";
    "conversationUpdate";
    "typing";
    "endOfConversation";
    "event";
    "invoke";
    "invokeResponse";
    "deleteUserData";
    "messageUpdate";
    "messageDelete";
    "installationUpdate";
    "messageReaction";
    "suggestion";
    "trace";
    "handoff";
    "command";
    "commandResult" ].

(** Modelled from the spec: the consuming validator is not part of this
    fragment (the literal set is "a field-value constraint" of an unseen
    schema).  A validator of a [Literal] type accepts a value exactly when it
    is equal to one of the literals; this one compares the candidate with
    each literal in turn. *)
Fixpoint literal_accepts (literals : list string) (v : string) : bool :=
  match literals with
  | [] => false
  | l :: rest => if String.eqb v l then true else literal_accepts rest v
  end.

Definition validate (v : string) : bool := literal_accepts ActivityType v.

(** The spec's wording of membership, one disjunct per literal. *)
Definition is_activity_type (v : string) : Prop :=
  v = "message" \/ v = "contactRelationUpdate" \/ v = "conversationUpdate" \/
  v = "typing" \/ v = "endOfConversation" \/ v = "event" \/ v = "invoke" \/
  v = "invokeResponse" \/ v = "deleteUserData" \/ v = "messageUpdate" \/
  v = "messageDelete" \/ v = "installationUpdate" \/ v = "messageReaction" \/
  v = "suggestion" \/ v = "trace" \/ v = "handoff" \/ v = "command" \/
  v = "commandResult".

(** The shape the literals share: a lower-case ASCII letter followed by
    ASCII letters only. *)
Definition is_lower (c : ascii) : bool :=
  let n := nat_of_ascii c in (97 <=? n)%nat && (n <=? 122)%nat.

Definition is_letter (c : ascii) : bool :=
  let n := nat_of_ascii c in
  ((65 <=? n)%nat && (n <=? 90)%nat) || is_lower c.

Fixpoint all_chars (f : ascii -> bool) (s : string) : bool :=
  match s with
  | EmptyString => true
  | String c r => f c && all_chars f r
  end.

Definition camel_case_word (s : string) : bool :=
  match s with
  | EmptyString => false
  | String c r => is_lower c && all_chars is_letter r
  end.

End ActivityTypes.

(* ================================================================= *)
(** ** fmt.py: the world the script runs in *)

Module Fmt.

(** A [pathlib.Path] that is relative to the current working directory, as
    its tuple of parts: [Path("./packages")] is [["packages"]] (pathlib drops
    the leading [.]).  Every path the script builds is of this kind. *)
Definition Path := list string.

(** The directory tree below the current working directory.  A directory
    keeps its entries in the order [os.scandir] reports them, which is the
    order [glob] yields them in. *)
#[warnings="-register-all"]
Inductive Node :=
| File
| Dir (entries : list (string * Node)).

Record World := {
  (** [os.getcwd()], as parts from the root *)
  getcwd : list string;
  (** the tree below it *)
  tree : Node;
  (** the return code of the child process started with the given argument
      vector in the given (absolute) working directory; a run starts at most
      one child per directory, so a function of the directory describes
      whatever the children of one run return *)
  exec : list string -> list string -> Z
}.

(** The operating-system calls behind the library calls of [fmt.py]: the
    directory scan of [glob], the [stat] of [is_dir], the write of [print],
    the [getcwd] of [absolute] and the start of the child in
    [subprocess.run]. *)
Inductive Syscall :=
| Scandir (p : Path)
| Stat (p : Path)
| Output (line : string)
| Getcwd
| Spawn (args : list string) (cwd : list string).

(** A host: what its calls answer when they succeed, and the [errno] of
    those that fail on it (a missing [poetry] makes [Spawn] fail with
    [ENOENT], an unsearchable [./packages] makes [Stat] fail with
    [EACCES]). *)
Record Host := {
  world : World;
  fault : Syscall -> option Z
}.

(** The host of a world on which no call fails. *)
Definition always_starts (w : World) : Host :=
  {| world := w; fault := fun _ => None |}.
Coercion always_starts : World >-> Host.

Fixpoint assoc (n : string) (entries : list (string * Node)) : option Node :=
  match entries with
  | [] => None
  | (m, x) :: rest => if String.eqb n m then Some x else assoc n rest
  end.

(** Path resolution from a node. *)
Fixpoint resolve (t : Node) (p : Path) : option Node :=
  match p with
  | [] => Some t
  | n :: q =>
      match t with
      | Dir entries =>
          match assoc n entries with
          | Some x => resolve x q
          | None => None
          end
      | File => None
      end
  end.

(** [os.scandir]: the entries of a directory, nothing for what is not one. *)
Definition scandir (w : World) (p : Path) : list (string * Node) :=
  match resolve (tree w) p with
  | Some (Dir entries) => entries
  | _ => []
  end.

(** [Path.glob("*")]: one path per entry of the directory, hidden ones
    included; no entry when the path is not a directory. *)
Definition glob_star (w : World) (p : Path) : list Path :=
  map (fun entry => p ++ [fst entry]) (scandir w p).

(** [Path.is_dir()] *)
Definition is_dir (w : World) (p : Path) : bool :=
  match resolve (tree w) p with
  | Some (Dir _) => true
  | _ => false
  end.

(** [Path.name]: the last part, empty for the empty path. *)
Definition name (p : Path) : string := last p "".

(** [Path.absolute()]: the working directory joined with the path, nothing
    normalised. *)
Definition absolute (w : World) (p : Path) : list string := getcwd w ++ p.

(* ----------------------------------------------------------------- *)
(** ** Effects *)

(** What a run does that can be observed from outside, in order.
    [subprocess.run] is [Popen] followed by a blocking wait, so one call
    leaves two events; [Popen] stands for a child that did start.  A call
    that fails leaves [Failed]. *)
Inductive Event :=
| Print (line : string)
| Popen (args : list string) (cwd : list string)
| Exited (cwd : list string) (returncode : Z)
| Failed (call : Syscall) (errno : Z).

(** The exceptions [fmt] can end with: [subprocess.CalledProcessError], and
    [OSError] (with its subclasses [FileNotFoundError], [PermissionError],
    [NotADirectoryError], ..., which the [errno] selects). *)
Inductive Exn :=
| CalledProcessError (returncode : Z) (cmd : list string)
| OSError (errno : Z).

Inductive result (A : Type) :=
| Return (a : A)
| Raise (e : Exn).
Arguments Return {A} a.
Arguments Raise {A} e.

(** A computation: the events it leaves and how it ends. *)
Definition IO (A : Type) : Type := list Event * result A.

Definition ret {A} (a : A) : IO A := ([], Return a).

Definition bind {A B} (m : IO A) (f : A -> IO B) : IO B :=
  match m with
  | (t, Return a) => let (t', r) := f a in (t ++ t', r)
  | (t, Raise e) => (t, Raise e)
  end.

Definition raise {A} (e : Exn) : IO A := ([], Raise e).
Definition emit (ev : Event) : IO unit := ([ev], Return tt).

Notation "x <- m ;; k" := (bind m (fun x => k))
  (at level 61, m at next level, right associativity).
Notation "m ;; k" := (bind m (fun _ => k))
  (at level 61, right associativity).

Definition trace {A} (m : IO A) : list Event := fst m.
Definition outcome {A} (m : IO A) : result A := snd m.

(** A [for] statement over a list: the body runs for each element in turn,
    and an exception leaves the loop. *)
Fixpoint for_each {A} (xs : list A) (body : A -> IO unit) : IO unit :=
  match xs with
  | [] => ret tt
  | x :: rest => body x ;; for_each rest body
  end.

(* ----------------------------------------------------------------- *)
(** ** The library calls the script makes *)

(** A call to the operating system: it raises [OSError] with the host's
    [errno] when it fails there, and gives its answer otherwise. *)
Definition syscall {A} (h : Host) (call : Syscall) (answer : A) : IO A :=
  match fault h call with
  | Some errno => emit (Failed call errno) ;; raise (OSError errno)
  | None => ret answer
  end.

(** [Path.glob("*")], the entries being listed when the loop starts. *)
Definition glob (h : Host) (p : Path) : IO (list Path) :=
  syscall h (Scandir p) (glob_star (world h) p).

(** [Path.is_dir()], which raises when [stat] fails for another reason
    than the path not being there. *)
Definition path_is_dir (h : Host) (p : Path) : IO bool :=
  syscall h (Stat p) (is_dir (world h) p).

(** [Path.absolute()], which asks for the working directory. *)
Definition path_absolute (h : Host) (p : Path) : IO (list string) :=
  syscall h Getcwd (absolute (world h) p).

Definition print (h : Host) (line : string) : IO unit :=
  syscall h (Output line) tt ;; emit (Print line).

Record CompletedProcess := {
  args : list string;
  returncode : Z
}.

(** [subprocess.run(args, cwd=cwd)] with [check] left at its default.
    [Popen] raises an [OSError] when the child cannot be started (no such
    executable, no such working directory); otherwise the child is started,
    waited for, and its return code recorded; a negative code is the number
    of the signal that ended it. *)
Definition subprocess_run (h : Host) (argv : list string) (cwd : list string)
  : IO CompletedProcess :=
  syscall h (Spawn argv cwd) tt ;;
  emit (Popen argv cwd) ;;
  emit (Exited cwd (exec (world h) argv cwd)) ;;
  ret {| args := argv; returncode := exec (world h) argv cwd |}.

(** [CompletedProcess.check_returncode]: [if self.returncode: raise ...]. *)
Definition check_returncode (p : CompletedProcess) : IO unit :=
  if Z.eqb (returncode p) 0 then ret tt
  else raise (CalledProcessError (returncode p) (args p)).

(* ----------------------------------------------------------------- *)
(** ** fmt.py *)

Definition packages : Path := ["packages"].
Definition cmd : list string := ["poetry"; "run"; "fmt"].

Definition banner (n : string) : string := "------ " ++ n ++ " ------".

(** The body of the loop, for one entry [e]. *)
Definition fmt_entry (h : Host) (e : Path) : IO unit :=
  d <- path_is_dir h e ;;
  if d then
    print h (banner (name e)) ;;
    cwd <- path_absolute h e ;;
    p <- subprocess_run h cmd cwd ;;
    check_returncode p
  else ret tt.

Definition fmt (h : Host) : IO unit :=
  es <- glob h packages ;;
  for_each es (fmt_entry h).

(* ----------------------------------------------------------------- *)
(** ** Vocabulary for the properties *)

(** The loop over an explicit list of entries. *)
Definition loop (h : Host) (es : list Path) : IO unit :=
  for_each es (fmt_entry h).

(** The return code of the formatter in entry [e]. *)
Definition rc (w : World) (e : Path) : Z := exec w cmd (absolute w e).

(** What one attempt on entry [e] leaves in the log. *)
Definition attempt (w : World) (e : Path) : list Event :=
  [ Print (banner (name e));
    Popen cmd (absolute w e);
    Exited (absolute w e) (rc w e) ].

(** The entries the loop lets through [e.is_dir()], in loop order. *)
Definition subdirs (w : World) : list Path :=
  filter (is_dir w) (glob_star w packages).

(** The loop reaches what follows [pre]: no directory of [pre] has a
    formatter that returns non-zero. *)
Definition passes (w : World) (pre : list Path) : Prop :=
  forall d, In d pre -> is_dir w d = true -> rc w d = 0%Z.

(** A directory never lists one name twice. *)
Definition distinct_names (w : World) : Prop :=
  NoDup (map fst (scandir w packages)).

(** The working directories of the children started, in order. *)
Fixpoint started (t : list Event) : list (list string) :=
  match t with
  | [] => []
  | Popen _ c :: t' => c :: started t'
  | _ :: t' => started t'
  end.

(** The children in flight after the events [t], given those in flight
    before: [Popen] adds one, [Exited] retires it. *)
Fixpoint in_flight (running : list (list string)) (t : list Event)
  : list (list string) :=
  match t with
  | [] => running
  | Popen _ c :: t' => in_flight (running ++ [c]) t'
  | Exited c _ :: t' =>
      in_flight (remove (list_eq_dec string_dec) c running) t'
  | Print _ :: t' => in_flight running t'
  | Failed _ _ :: t' => in_flight running t'
  end.


(** [n] occurs in [line] as a substring. *)
Definition occurs_in (n line : string) : Prop :=
  exists pre post : string, line = (pre ++ n ++ post)%string.

(** The lines printed, in order. *)
Fixpoint printed (t : list Event) : list string :=
  match t with
  | [] => []
  | Print line :: t' => line :: printed t'
  | _ :: t' => printed t'
  end.

Definition is_Dir (x : Node) : bool :=
  match x with
  | Dir _ => true
  | File => false
  end.

(** What [./packages] lists: the name of each entry and whether it is a
    directory, without what the entry holds. *)
Definition listing (w : World) : list (string * bool) :=
  map (fun entry => (fst entry, is_Dir (snd entry))) (scandir w packages).

(** The kind recorded for name [n] in a listing. *)
Fixpoint kind_of (n : string) (l : list (string * bool)) : bool :=
  match l with
  | [] => false
  | (m, k) :: rest => if String.eqb n m then k else kind_of n rest
  end.

(* ----------------------------------------------------------------- *)
(** ** Sample worlds *)

Definition ends_in (n : string) (cwd : list string) : bool :=
  String.eqb (last cwd "") n.

Definition checkout : list string := ["home"; "dev"; "teams-ai"; "python"].

(** Three packages and a stray file; each package has content of its own. *)
Definition three_packages : Node :=
  Dir [ ("packages",
         Dir [ ("ai", Dir [ ("teams", Dir [ ("activity_type.py", File) ]);
                            ("pyproject.toml", File) ]);
               ("README.md", File);
               ("botbuilder", Dir [ ("pyproject.toml", File) ]);
               ("openai", Dir []) ]);
        ("scripts", Dir [ ("fmt.py", File) ]) ].

(** Every formatter succeeds. *)
Definition world_clean : World :=
  {| getcwd := checkout; tree := three_packages;
     exec := fun _ _ => 0%Z |}.

(** The formatter of [botbuilder] exits with status 2. *)
Definition world_b_fails : World :=
  {| getcwd := checkout; tree := three_packages;
     exec := fun _ cwd => if ends_in "botbuilder" cwd then 2%Z else 0%Z |}.

(** The formatter of [ai] fails at once, with status 1. *)
Definition world_a_fails : World :=
  {| getcwd := checkout; tree := three_packages;
     exec := fun _ cwd => if ends_in "ai" cwd then 1%Z else 0%Z |}.

(** The formatter of [botbuilder] is ended by SIGTERM. *)
Definition world_b_killed : World :=
  {| getcwd := checkout; tree := three_packages;
     exec := fun _ cwd => if ends_in "botbuilder" cwd then (-15)%Z else 0%Z |}.

(** [./packages] holds files only; every formatter would fail. *)
Definition world_files_only : World :=
  {| getcwd := checkout;
     tree := Dir [ ("packages", Dir [ ("README.md", File); (".gitignore", File) ]) ];
     exec := fun _ _ => 1%Z |}.

(** The same names and kinds under [./packages] as [three_packages], with
    other content inside the packages and beside [./packages]; the formatter
    of [botbuilder] exits with status 2, and any other command with 7. *)
Definition world_other_content : World :=
  {| getcwd := checkout;
     tree :=
       Dir [ ("docs", Dir [ ("index.md", File) ]);
             ("packages",
              Dir [ ("ai", Dir []);
                    ("README.md", File);
                    ("botbuilder", Dir [ ("tests", Dir [ ("test_x.py", File) ]) ]);
                    ("openai", Dir [ ("openai.py", File) ]) ]) ];
     exec := fun argv cwd =>
       if list_eq_dec string_dec argv cmd
       then (if ends_in "botbuilder" cwd then 2%Z else 0%Z)
       else 7%Z |}.


(** [./packages] is a file. *)
Definition world_packages_is_file : World :=
  {| getcwd := checkout; tree := Dir [ ("packages", File) ];
     exec := fun _ _ => 1%Z |}.

(** There is no [./packages] at all. *)
Definition world_no_packages : World :=
  {| getcwd := checkout; tree := Dir [ ("scripts", Dir []) ];
     exec := fun _ _ => 1%Z |}.

End Fmt.

(** Distinctness of the elements of an explicit list. *)
Ltac solve_distinct :=
  repeat (constructor; [simpl; intuition discriminate|]); constructor.

(* ================================================================= *)
(** * Properties of the activity-type set *)

Section ActivityTypeFacts.
Import ActivityTypes.

Lemma literal_accepts_In (ls : list string) (v : string) :
  literal_accepts ls v = true <-> In v ls.
Proof.
  induction ls as [|l ls IH]; simpl.
  - split; [discriminate | tauto].
  - destruct (String.eqb_spec v l) as [->|Hne].
    + split; auto.
    + rewrite IH. split; [auto | intros [Heq|Hin]; [congruence | exact Hin]].
Qed.

Lemma is_activity_type_In (v : string) :
  is_activity_type v <-> In v ActivityType.
Proof.
  unfold is_activity_type, ActivityType; simpl.
  split; intros H;
    repeat (destruct H as [H|H]; [subst; tauto|]); try subst; tauto.
Qed.

End ActivityTypeFacts.

(* ================================================================= *)
(** * Properties of the format runner *)

Section FmtFacts.
Import Fmt.

(** ** The loop body and the loop *)

Lemma check_returncode_zero (p : CompletedProcess) :
  returncode p = 0%Z -> check_returncode p = ret tt.
Proof. unfold check_returncode. intros ->. reflexivity. Qed.

Lemma check_returncode_nonzero (p : CompletedProcess) :
  returncode p <> 0%Z ->
  check_returncode p = raise (CalledProcessError (returncode p) (args p)).
Proof.
  unfold check_returncode. intros H.
  destruct (Z.eqb_spec (returncode p) 0); [contradiction | reflexivity].
Qed.

(** The loop body on a host, when the calls it makes for [e] succeed. *)
Lemma host_entry_skip (h : Host) (e : Path) :
  fault h (Stat e) = None -> is_dir (world h) e = false ->
  fmt_entry h e = ret tt.
Proof.
  intros Hs Hd. unfold fmt_entry, path_is_dir, syscall.
  rewrite Hs. unfold bind, ret; simpl. rewrite Hd. reflexivity.
Qed.

Lemma host_entry_run (h : Host) (e : Path) :
  fault h (Stat e) = None ->
  fault h (Output (banner (name e))) = None ->
  fault h Getcwd = None ->
  fault h (Spawn cmd (absolute (world h) e)) = None ->
  is_dir (world h) e = true ->
  fmt_entry h e =
    (attempt (world h) e,
     if Z.eqb (rc (world h) e) 0 then Return tt
     else Raise (CalledProcessError (rc (world h) e) cmd)).
Proof.
  intros Hs Ho Hg Hp Hd.
  unfold fmt_entry, path_is_dir, print, path_absolute, subprocess_run,
    syscall.
  rewrite Hs, Ho, Hg. unfold bind, ret, emit; simpl.
  rewrite Hd; simpl. rewrite Hp; simpl.
  unfold check_returncode, attempt, rc, ret, raise; simpl.
  destruct (Z.eqb (exec (world h) cmd (absolute (world h) e)) 0);
    reflexivity.
Qed.

Lemma fmt_entry_skip (w : World) (e : Path) :
  is_dir w e = false -> fmt_entry w e = ret tt.
Proof. apply (host_entry_skip w e eq_refl). Qed.

Lemma fmt_entry_ok (w : World) (e : Path) :
  is_dir w e = true -> rc w e = 0%Z ->
  fmt_entry w e = (attempt w e, Return tt).
Proof.
  intros Hd H.
  rewrite (host_entry_run w e eq_refl eq_refl eq_refl eq_refl Hd).
  simpl world. rewrite H. reflexivity.
Qed.

Lemma fmt_entry_fail (w : World) (e : Path) :
  is_dir w e = true -> rc w e <> 0%Z ->
  fmt_entry w e = (attempt w e, Raise (CalledProcessError (rc w e) cmd)).
Proof.
  intros Hd H.
  rewrite (host_entry_run w e eq_refl eq_refl eq_refl eq_refl Hd).
  simpl world. destruct (Z.eqb_spec (rc w e) 0); [contradiction|].
  reflexivity.
Qed.

Lemma loop_cons_skip (w : World) (e : Path) (es : list Path) :
  is_dir w e = false -> loop w (e :: es) = loop w es.
Proof.
  intros H. unfold loop; simpl. rewrite (fmt_entry_skip _ _ H).
  unfold bind, ret. destruct (for_each es (fmt_entry w)); reflexivity.
Qed.

Lemma loop_cons_ok (w : World) (e : Path) (es : list Path) :
  is_dir w e = true -> rc w e = 0%Z ->
  loop w (e :: es) = (attempt w e ++ trace (loop w es), outcome (loop w es)).
Proof.
  intros Hd H. unfold loop; simpl. rewrite (fmt_entry_ok _ _ Hd H).
  unfold bind. destruct (for_each es (fmt_entry w)); reflexivity.
Qed.

Lemma loop_cons_fail (w : World) (e : Path) (es : list Path) :
  is_dir w e = true -> rc w e <> 0%Z ->
  loop w (e :: es) = (attempt w e, Raise (CalledProcessError (rc w e) cmd)).
Proof.
  intros Hd H. unfold loop; simpl. rewrite (fmt_entry_fail _ _ Hd H).
  reflexivity.
Qed.

Lemma passes_nil (w : World) : passes w [].
Proof. intros d []. Qed.

Lemma passes_cons (w : World) (e : Path) (pre : list Path) :
  passes w (e :: pre) <->
  (is_dir w e = true -> rc w e = 0%Z) /\ passes w pre.
Proof.
  unfold passes; split.
  - intros H; split; [apply H; left; reflexivity|].
    intros d Hd; apply H; right; exact Hd.
  - intros [He Hp] d [<-|Hd]; [exact He | apply Hp; exact Hd].
Qed.

(** Entries the loop passes contribute their attempts and hand over to the
    rest of the list. *)
Lemma loop_passes (w : World) (pre post : list Path) :
  passes w pre ->
  loop w (pre ++ post) =
    (flat_map (attempt w) (filter (is_dir w) pre) ++ trace (loop w post),
     outcome (loop w post)).
Proof.
  induction pre as [|e pre IH]; intros Hp.
  - simpl. destruct (loop w post); reflexivity.
  - apply passes_cons in Hp as [He Hp]. specialize (IH Hp).
    simpl app. simpl filter. destruct (is_dir w e) eqn:Hd.
    + rewrite (loop_cons_ok _ _ _ Hd (He eq_refl)), IH.
      unfold trace, outcome; simpl. reflexivity.
    + rewrite (loop_cons_skip _ _ _ Hd). exact IH.
Qed.

Lemma loop_nil (w : World) : loop w [] = ([], Return tt).
Proof. reflexivity. Qed.

(** A run either passes every entry or stops at a first failing directory. *)
Lemma loop_cases (w : World) (es : list Path) :
  passes w es \/
  exists pre e post,
    es = pre ++ e :: post /\ passes w pre /\
    is_dir w e = true /\ rc w e <> 0%Z.
Proof.
  induction es as [|e es IH].
  - left. apply passes_nil.
  - destruct (is_dir w e) eqn:Hd.
    + destruct (Z.eq_dec (rc w e) 0) as [Hz|Hnz].
      * destruct IH as [Hp | (pre & x & post & -> & Hp & Hx & Hr)].
        -- left. apply passes_cons. split; [intros _; exact Hz | exact Hp].
        -- right. exists (e :: pre), x, post. repeat split; auto.
           apply passes_cons. split; [intros _; exact Hz | exact Hp].
      * right. exists [], e, es. repeat split; auto using passes_nil.
    + destruct IH as [Hp | (pre & x & post & -> & Hp & Hx & Hr)].
      * left. apply passes_cons. split; [congruence | exact Hp].
      * right. exists (e :: pre), x, post. repeat split; auto.
        apply passes_cons. split; [congruence | exact Hp].
Qed.

Lemma loop_all_pass (w : World) (es : list Path) :
  passes w es ->
  loop w es = (flat_map (attempt w) (filter (is_dir w) es), Return tt).
Proof.
  intros Hp. rewrite <- (app_nil_r es) at 1.
  rewrite (loop_passes _ _ _ Hp), loop_nil. simpl. rewrite app_nil_r.
  reflexivity.
Qed.

Lemma loop_stops (w : World) (pre post : list Path) (e : Path) :
  passes w pre -> is_dir w e = true -> rc w e <> 0%Z ->
  loop w (pre ++ e :: post) =
    (flat_map (attempt w) (filter (is_dir w) pre) ++ attempt w e,
     Raise (CalledProcessError (rc w e) cmd)).
Proof.
  intros Hp Hd Hr.
  rewrite (loop_passes _ _ _ Hp), (loop_cons_fail _ _ _ Hd Hr). reflexivity.
Qed.

(** On a host where the scan of [./packages] succeeds, [fmt] is the loop
    over what [glob] yields. *)
Lemma host_fmt_loop (h : Host) :
  fault h (Scandir packages) = None ->
  fmt h = loop h (glob_star (world h) packages).
Proof.
  intros Hs. unfold fmt, glob, syscall, loop. rewrite Hs.
  unfold bind, ret.
  destruct (for_each (glob_star (world h) packages) (fmt_entry h));
    reflexivity.
Qed.

Lemma fmt_loop (w : World) : fmt w = loop w (glob_star w packages).
Proof. apply (host_fmt_loop w eq_refl). Qed.

(** ** Paths and the directory listing *)

Lemma absolute_inj (w : World) (p q : Path) :
  absolute w p = absolute w q -> p = q.
Proof. unfold absolute. apply app_inv_head. Qed.


Lemma name_child (p : Path) (n : string) : name (p ++ [n]) = n.
Proof. unfold name. apply last_last. Qed.

Lemma glob_star_child (w : World) (p e : Path) :
  In e (glob_star w p) <->
  exists n, In n (map fst (scandir w p)) /\ e = p ++ [n].
Proof.
  unfold glob_star. rewrite in_map_iff. split.
  - intros ([n x] & <- & Hin). exists n. split; [|reflexivity].
    apply in_map_iff. exists (n, x). split; [reflexivity | exact Hin].
  - intros (n & Hin & ->). apply in_map_iff in Hin as ([m x] & <- & Hin).
    exists (m, x). split; [reflexivity | exact Hin].
Qed.

Lemma glob_star_NoDup (w : World) :
  distinct_names w -> NoDup (glob_star w packages).
Proof.
  unfold distinct_names, glob_star.
  induction (scandir w packages) as [|[n x] l IH]; simpl; intros H.
  - constructor.
  - inversion H as [|? ? Hn Hl]; subst. constructor; [|apply IH; exact Hl].
    intros Hin. apply in_map_iff in Hin as ([m y] & Heq & Hin).
    simpl in Heq. injection Heq as Heq. subst m.
    apply Hn. apply in_map_iff. exists (n, y). split; [reflexivity | exact Hin].
Qed.

Lemma subdirs_In (w : World) (e : Path) :
  In e (subdirs w) <-> In e (glob_star w packages) /\ is_dir w e = true.
Proof. unfold subdirs. apply filter_In. Qed.

Lemma subdirs_NoDup (w : World) : distinct_names w -> NoDup (subdirs w).
Proof. intros H. apply NoDup_filter, glob_star_NoDup, H. Qed.

(** Entries that are not directories can be left out of the loop. *)
Lemma loop_filter (w : World) (es : list Path) :
  loop w es = loop w (filter (is_dir w) es).
Proof.
  induction es as [|e es IH]; [reflexivity|].
  simpl filter. destruct (is_dir w e) eqn:Hd.
  - unfold loop in *. simpl. rewrite IH. reflexivity.
  - rewrite (loop_cons_skip _ _ _ Hd). exact IH.
Qed.

Lemma fmt_subdirs (w : World) : fmt w = loop w (subdirs w).
Proof. rewrite fmt_loop. apply loop_filter. Qed.

(** ** The shape of the log *)

(** The log of any run is the attempts on a prefix [ds] of the directories,
    each but possibly the last with return code zero; the run raises exactly
    when the last one has a non-zero code. *)
Lemma loop_shape (w : World) (es : list Path) :
  exists ds rest,
    filter (is_dir w) es = ds ++ rest /\
    trace (loop w es) = flat_map (attempt w) ds /\
    ((outcome (loop w es) = Return tt /\ rest = [] /\
      forall d, In d ds -> rc w d = 0%Z) \/
     (exists ds' e,
        ds = ds' ++ [e] /\ (forall d, In d ds' -> rc w d = 0%Z) /\
        rc w e <> 0%Z /\
        outcome (loop w es) = Raise (CalledProcessError (rc w e) cmd))).
Proof.
  destruct (loop_cases w es) as [Hp | (pre & e & post & -> & Hp & Hd & Hr)].
  - exists (filter (is_dir w) es), []. rewrite app_nil_r.
    rewrite (loop_all_pass _ _ Hp). split; [reflexivity|].
    split; [reflexivity|]. left. split; [reflexivity|]. split; [reflexivity|].
    intros d Hin. apply filter_In in Hin as [Hin Hdd]. apply Hp; assumption.
  - exists (filter (is_dir w) pre ++ [e]), (filter (is_dir w) post).
    rewrite (loop_stops _ _ _ _ Hp Hd Hr). split.
    + rewrite filter_app. simpl. rewrite Hd, <- app_assoc. reflexivity.
    + split.
      * unfold trace; simpl. rewrite flat_map_app. reflexivity.
      * right. exists (filter (is_dir w) pre), e.
        split; [reflexivity|]. split; [|split; [exact Hr | reflexivity]].
        intros d Hin. apply filter_In in Hin as [Hin Hdd]. apply Hp; assumption.
Qed.

Lemma started_app (t1 t2 : list Event) :
  started (t1 ++ t2) = started t1 ++ started t2.
Proof.
  induction t1 as [|ev t1 IH]; [reflexivity|].
  destruct ev; simpl; rewrite IH; reflexivity.
Qed.

Lemma started_attempts (w : World) (ds : list Path) :
  started (flat_map (attempt w) ds) = map (absolute w) ds.
Proof.
  induction ds as [|d ds IH]; [reflexivity|]. simpl. rewrite IH. reflexivity.
Qed.

Lemma started_In (t : list Event) (c : list string) :
  In c (started t) <-> exists a, In (Popen a c) t.
Proof.
  induction t as [|ev t IH]; simpl.
  - split; [tauto | intros [a []]].
  - destruct ev as [l|a' c'|c' r|call n]; simpl; rewrite IH; split.
    + intros [a H]; exists a; auto.
    + intros [a [H|H]]; [discriminate | exists a; exact H].
    + intros [<-|[a H]]; [exists a'; auto | exists a; auto].
    + intros [a [H|H]]; [injection H as -> ->; auto | right; exists a; exact H].
    + intros [a H]; exists a; auto.
    + intros [a [H|H]]; [discriminate | exists a; exact H].
    + intros [a H]; exists a; auto.
    + intros [a [H|H]]; [discriminate | exists a; exact H].
Qed.

Lemma in_attempts (w : World) (ds : list Path) (ev : Event) :
  In ev (flat_map (attempt w) ds) ->
  exists d, In d ds /\
    (ev = Print (banner (name d)) \/ ev = Popen cmd (absolute w d) \/
     ev = Exited (absolute w d) (rc w d)).
Proof.
  intros H. apply in_flat_map in H as (d & Hd & Hev). exists d.
  split; [exact Hd|]. simpl in Hev.
  destruct Hev as [<-|[<-|[<-|[]]]]; auto.
Qed.

(** Where a log of attempts starts a child: right after the banner of its
    directory, and right before its exit. *)
Lemma attempts_split (w : World) (ds : list Path) t1 a c t2 :
  flat_map (attempt w) ds = t1 ++ Popen a c :: t2 ->
  exists ds1 d ds2,
    ds = ds1 ++ d :: ds2 /\ a = cmd /\ c = absolute w d /\
    t1 = flat_map (attempt w) ds1 ++ [Print (banner (name d))] /\
    t2 = Exited c (rc w d) :: flat_map (attempt w) ds2.
Proof.
  revert t1. induction ds as [|d ds IH]; intros t1 H.
  - destruct t1; discriminate.
  - simpl in H.
    destruct t1 as [|x1 [|x2 [|x3 t1]]]; simpl in H; try discriminate.
    + injection H as <- <- <- <-.
      exists [], d, ds. repeat split; reflexivity.
    + injection H as <- <- <- H.
      destruct (IH _ H) as (ds1 & d' & ds2 & -> & -> & -> & -> & ->).
      exists (d :: ds1), d', ds2. repeat split; reflexivity.
Qed.

Lemma in_flight_app (r : list (list string)) (t1 t2 : list Event) :
  in_flight r (t1 ++ t2) = in_flight (in_flight r t1) t2.
Proof.
  revert r. induction t1 as [|ev t1 IH]; intros r; [reflexivity|].
  destruct ev; simpl; apply IH.
Qed.

Lemma remove_single (c : list string) :
  remove (list_eq_dec string_dec) c [c] = [].
Proof.
  simpl. destruct (list_eq_dec string_dec c c); [reflexivity | contradiction].
Qed.

Lemma in_flight_attempt (w : World) (d : Path) :
  in_flight [] (attempt w d) = [].
Proof. simpl. apply remove_single. Qed.

Lemma in_flight_attempts (w : World) (ds : list Path) :
  in_flight [] (flat_map (attempt w) ds) = [].
Proof.
  induction ds as [|d ds IH]; [reflexivity|].
  change (flat_map (attempt w) (d :: ds))
    with (attempt w d ++ flat_map (attempt w) ds).
  rewrite in_flight_app, in_flight_attempt. exact IH.
Qed.

(** No prefix of a log of attempts leaves two children in flight. *)
Lemma in_flight_prefix (w : World) (ds : list Path) t1 t2 :
  flat_map (attempt w) ds = t1 ++ t2 ->
  (List.length (in_flight [] t1) <= 1)%nat.
Proof.
  revert t1. induction ds as [|d ds IH]; intros t1 H.
  - destruct t1; [simpl; lia | discriminate].
  - simpl in H.
    destruct t1 as [|x1 [|x2 [|x3 t1]]]; simpl in H.
    + simpl; lia.
    + injection H as <- _. simpl; lia.
    + injection H as <- <- _. simpl; lia.
    + injection H as <- <- <- H.
      change (List.length (in_flight [] (attempt w d ++ t1)) <= 1)%nat.
      rewrite in_flight_app, in_flight_attempt. apply (IH _ H).
Qed.

Lemma exited_in_attempts (w : World) (ds : list Path) c code :
  In (Exited c code) (flat_map (attempt w) ds) ->
  exists d, In d ds /\ c = absolute w d /\ code = rc w d.
Proof.
  intros H. apply in_attempts in H as (d & Hd & [H|[H|H]]); try discriminate.
  injection H as -> ->. exists d. auto.
Qed.

Lemma attempts_snoc (w : World) (ds : list Path) (e : Path) :
  flat_map (attempt w) (ds ++ [e]) =
  (flat_map (attempt w) ds
     ++ [Print (banner (name e)); Popen cmd (absolute w e)])
    ++ [Exited (absolute w e) (rc w e)].
Proof. rewrite flat_map_app, <- app_assoc. reflexivity. Qed.

(* ================================================================= *)
(** * The claims about the format runner *)

(** A statement about [w : World] speaks of the host [always_starts w], on
    which every call to the operating system succeeds, so that every
    formatter started yields a return code.  The statements about
    [h : Host] cover the hosts on which calls fail. *)

(** C1: when the directories of [./packages] are A, B, C in loop order, A's
    formatter returns zero and B's returns a non-zero code, the run prints
    A's banner, runs A's formatter to its zero exit, prints B's banner, runs
    B's formatter, and raises [CalledProcessError] carrying B's code; no
    child is ever started in C. *)
Theorem fmt_stops_at_first_failure (w : World) (a b c : Path) (code : Z) :
  distinct_names w ->
  subdirs w = [a; b; c] ->
  rc w a = 0%Z -> rc w b = code -> code <> 0%Z ->
  fmt w =
    ([ Print (banner (name a)); Popen cmd (absolute w a);
       Exited (absolute w a) 0;
       Print (banner (name b)); Popen cmd (absolute w b);
       Exited (absolute w b) code ],
     Raise (CalledProcessError code cmd)) /\
  ~ In (absolute w c) (started (trace (fmt w))).
Proof.
  intros Hw Hs Ha Hb Hc.
  assert (Hda : is_dir w a = true)
    by (apply (subdirs_In w a); rewrite Hs; simpl; auto).
  assert (Hdb : is_dir w b = true)
    by (apply (subdirs_In w b); rewrite Hs; simpl; auto).
  assert (Hfmt : fmt w =
    ([ Print (banner (name a)); Popen cmd (absolute w a);
       Exited (absolute w a) 0;
       Print (banner (name b)); Popen cmd (absolute w b);
       Exited (absolute w b) code ],
     Raise (CalledProcessError code cmd))).
  { rewrite fmt_subdirs, Hs.
    rewrite (loop_cons_ok _ _ _ Hda Ha).
    rewrite loop_cons_fail by (try assumption; rewrite Hb; exact Hc).
    unfold attempt, trace, outcome; simpl. rewrite Ha, Hb. reflexivity. }
  split; [exact Hfmt|].
  rewrite Hfmt. simpl.
  pose proof (subdirs_NoDup w Hw) as Hnd. rewrite Hs in Hnd.
  inversion Hnd as [|? ? Hna Hnd']; subst.
  inversion Hnd' as [|? ? Hnb _]; subst.
  intros [H|[H|[]]]; apply absolute_inj in H; subst.
  - apply Hna. simpl; auto.
  - apply Hnb. simpl; auto.
Qed.

Lemma fmt_stops_at_first_failure_witness :
  distinct_names world_b_fails /\
  subdirs world_b_fails =
    [ ["packages"; "ai"]; ["packages"; "botbuilder"]; ["packages"; "openai"] ] /\
  fmt world_b_fails =
    ([ Print "------ ai ------";
       Popen cmd (checkout ++ ["packages"; "ai"]);
       Exited (checkout ++ ["packages"; "ai"]) 0;
       Print "------ botbuilder ------";
       Popen cmd (checkout ++ ["packages"; "botbuilder"]);
       Exited (checkout ++ ["packages"; "botbuilder"]) 2 ],
     Raise (CalledProcessError 2 cmd)) /\
  ~ In (checkout ++ ["packages"; "openai"])
       (started (trace (fmt world_b_fails))).
Proof.
  assert (Hw : distinct_names world_b_fails)
    by (unfold distinct_names; simpl; solve_distinct).
  split; [exact Hw|]. split; [reflexivity|].
  apply (fmt_stops_at_first_failure world_b_fails
           ["packages"; "ai"] ["packages"; "botbuilder"] ["packages"; "openai"] 2%Z
           Hw eq_refl eq_refl eq_refl).
  discriminate.
Defined.

(** C5: when no entry of [./packages] is a directory (or there is no such
    folder to list), the run returns normally and its log is empty: nothing
    printed, no child started. *)
Theorem fmt_no_subdirectories (w : World) :
  (forall e, In e (glob_star w packages) -> is_dir w e = false) ->
  fmt w = ([], Return tt) /\ started (trace (fmt w)) = [].
Proof.
  intros H.
  assert (Hs : subdirs w = []).
  { unfold subdirs. induction (glob_star w packages) as [|e es IH];
      [reflexivity|].
    simpl. rewrite (H e (or_introl eq_refl)). apply IH.
    intros x Hx. apply H. right. exact Hx. }
  rewrite fmt_subdirs, Hs. split; reflexivity.
Qed.

Lemma fmt_no_subdirectories_witness :
  glob_star world_files_only packages =
    [ ["packages"; "README.md"]; ["packages"; ".gitignore"] ] /\
  fmt world_files_only = ([], Return tt) /\
  started (trace (fmt world_files_only)) = [].
Proof.
  split; [reflexivity|].
  apply (fmt_no_subdirectories world_files_only).
  intros e [<-|[<-|[]]]; reflexivity.
Defined.

(** C3, as stated, fails: it is not so that for every immediate child [e]
    of [./packages] a child process is started in [e] exactly when [e] is a
    directory.  When the formatter of [ai] fails, [botbuilder] is a directory
    and nothing is started there. *)
Lemma fmt_invokes_every_directory_refuted :
  ~ (forall (w : World) (e : Path),
       In e (glob_star w packages) ->
       (In (Popen cmd (absolute w e)) (trace (fmt w)) <-> is_dir w e = true)).
Proof.
  intros H.
  assert (Hin : In ["packages"; "botbuilder"] (glob_star world_a_fails packages))
    by (simpl; auto).
  apply H in Hin. destruct Hin as [_ Hin]. specialize (Hin eq_refl).
  simpl in Hin. destruct Hin as [Hin|[Hin|[Hin|[]]]]; discriminate.
Qed.

(** C3, amended: for every immediate child [e] of [./packages] that the loop
    reaches (no directory listed before it has a formatter returning
    non-zero), the fixed command is started with [e]'s absolute path as
    working directory exactly when [e] is a directory.  In every run, each
    child process runs the fixed command in the absolute path of an immediate
    child that is a directory; nothing is started in an immediate child that
    is not a directory; the entries looked at are the paths
    [packages/<name>] for the names listed in [./packages]; and nothing is
    started in a path nested deeper. *)
Theorem fmt_invokes_reached_directories (w : World) :
  (forall pre e post,
     glob_star w packages = pre ++ e :: post -> passes w pre ->
     (In (Popen cmd (absolute w e)) (trace (fmt w)) <-> is_dir w e = true)) /\
  (forall a c,
     In (Popen a c) (trace (fmt w)) ->
     a = cmd /\
     exists e, In e (glob_star w packages) /\ is_dir w e = true /\
               c = absolute w e) /\
  (forall e,
     In e (glob_star w packages) -> is_dir w e = false ->
     ~ In (absolute w e) (started (trace (fmt w)))) /\
  (forall e,
     In e (glob_star w packages) ->
     exists n, In n (map fst (scandir w packages)) /\ e = ["packages"; n]) /\
  (forall q,
     (2 < List.length q)%nat ->
     ~ In (absolute w q) (started (trace (fmt w)))).
Proof.
  assert (Hall : forall a c,
     In (Popen a c) (trace (fmt w)) ->
     a = cmd /\
     exists e, In e (glob_star w packages) /\ is_dir w e = true /\
               c = absolute w e).
  { intros a c Hin. rewrite fmt_loop in Hin.
    destruct (loop_shape w (glob_star w packages))
      as (ds & rest & Hf & Ht & _).
    rewrite Ht in Hin.
    apply in_attempts in Hin as (d & Hd & [H|[H|H]]); try discriminate.
    injection H as -> ->. split; [reflexivity|]. exists d.
    assert (Hs : In d (filter (is_dir w) (glob_star w packages)))
      by (rewrite Hf; apply in_or_app; left; exact Hd).
    apply filter_In in Hs as [Hg Hdir]. auto. }
  assert (Hchild : forall e,
     In e (glob_star w packages) ->
     exists n, In n (map fst (scandir w packages)) /\ e = ["packages"; n]).
  { intros e He. apply glob_star_child in He. exact He. }
  split; [|split; [exact Hall|split; [|split; [exact Hchild|]]]].
  - intros pre e post Hg Hp. split.
    + intros Hin. apply Hall in Hin as (_ & e' & _ & Hd & Heq).
      apply absolute_inj in Heq. subst e'. exact Hd.
    + intros Hd. rewrite fmt_loop, Hg, (loop_passes _ _ _ Hp).
      unfold trace at 1; simpl fst. apply in_or_app. right.
      destruct (Z.eq_dec (rc w e) 0) as [Hz|Hnz].
      * rewrite (loop_cons_ok _ _ _ Hd Hz). simpl. auto.
      * rewrite (loop_cons_fail _ _ _ Hd Hnz). simpl. auto.
  - intros e _ Hd Hin. apply started_In in Hin as [a Hin].
    apply Hall in Hin as (_ & e' & _ & Hd' & Heq).
    apply absolute_inj in Heq. subst e'. congruence.
  - intros q Hq Hin. apply started_In in Hin as [a Hin].
    apply Hall in Hin as (_ & e' & He' & _ & Heq).
    apply absolute_inj in Heq. subst e'.
    apply Hchild in He' as (n & _ & ->). simpl in Hq. lia.
Qed.

Lemma fmt_invokes_reached_directories_witness :
  glob_star world_b_fails packages =
    [["packages"; "ai"]; ["packages"; "README.md"]]
      ++ ["packages"; "botbuilder"] :: [["packages"; "openai"]] /\
  passes world_b_fails [["packages"; "ai"]; ["packages"; "README.md"]] /\
  is_dir world_b_fails ["packages"; "botbuilder"] = true /\
  In (Popen cmd (checkout ++ ["packages"; "botbuilder"]))
     (trace (fmt world_b_fails)) /\
  ~ In (checkout ++ ["packages"; "README.md"])
       (started (trace (fmt world_b_fails))) /\
  ~ In (checkout ++ ["packages"; "ai"; "teams"])
       (started (trace (fmt world_b_fails))).
Proof.
  assert (Hp : passes world_b_fails
                 [["packages"; "ai"]; ["packages"; "README.md"]]).
  { intros d [<-|[<-|[]]] _; reflexivity. }
  destruct (fmt_invokes_reached_directories world_b_fails)
    as (Hreach & _ & Hfile & _ & Hdeep).
  split; [reflexivity|]. split; [exact Hp|]. split; [reflexivity|].
  split; [|split].
  - apply (Hreach [["packages"; "ai"]; ["packages"; "README.md"]]
             ["packages"; "botbuilder"] [["packages"; "openai"]]
             eq_refl Hp).
    reflexivity.
  - apply (Hfile ["packages"; "README.md"]); [simpl; auto | reflexivity].
  - apply (Hdeep ["packages"; "ai"; "teams"]). simpl. lia.
Defined.

(** ** Hosts on which calls fail *)











(** C6: the children run one after the other.  After any prefix of the log
    at most one child is in flight; when a child is started none is, and the
    next event is that same child's exit, whose return code the script then
    inspects; at the end of the run none is left in flight. *)
Theorem fmt_sequential (w : World) :
  (forall t1 t2,
     trace (fmt w) = t1 ++ t2 -> (List.length (in_flight [] t1) <= 1)%nat) /\
  (forall t1 a c t2,
     trace (fmt w) = t1 ++ Popen a c :: t2 ->
     in_flight [] t1 = [] /\
     (forall a' c', In (Popen a' c') t1 -> exists code, In (Exited c' code) t1) /\
     exists t3, t2 = Exited c (exec w a c) :: t3) /\
  in_flight [] (trace (fmt w)) = [].
Proof.
  rewrite fmt_loop.
  destruct (loop_shape w (glob_star w packages)) as (ds & rest & _ & Ht & _).
  rewrite Ht. split; [|split].
  - intros t1 t2 H. apply (in_flight_prefix w ds t1 t2 H).
  - intros t1 a c t2 H.
    apply attempts_split in H as (ds1 & d & ds2 & -> & -> & -> & -> & ->).
    split; [|split].
    + rewrite in_flight_app, in_flight_attempts. reflexivity.
    + intros a' c' Hin. apply in_app_or in Hin as [Hin|[Hin|[]]];
        [|discriminate].
      apply in_attempts in Hin as (d' & Hd' & [H|[H|H]]); try discriminate.
      injection H as -> ->. exists (rc w d'). apply in_or_app. left.
      apply in_flat_map. exists d'. split; [exact Hd'|]. simpl; auto.
    + eexists. reflexivity.
  - apply in_flight_attempts.
Qed.

Lemma fmt_sequential_witness :
  trace (fmt world_clean) =
    [ Print "------ ai ------";
      Popen cmd (checkout ++ ["packages"; "ai"]);
      Exited (checkout ++ ["packages"; "ai"]) 0;
      Print "------ botbuilder ------" ]
    ++ Popen cmd (checkout ++ ["packages"; "botbuilder"])
    :: [ Exited (checkout ++ ["packages"; "botbuilder"]) 0;
         Print "------ openai ------";
         Popen cmd (checkout ++ ["packages"; "openai"]);
         Exited (checkout ++ ["packages"; "openai"]) 0 ] /\
  in_flight []
    [ Print "------ ai ------";
      Popen cmd (checkout ++ ["packages"; "ai"]);
      Exited (checkout ++ ["packages"; "ai"]) 0;
      Print "------ botbuilder ------" ] = [].
Proof.
  split; [reflexivity|].
  destruct (fmt_sequential world_clean) as (_ & Hstart & _).
  refine (proj1 (Hstart _ cmd (checkout ++ ["packages"; "botbuilder"]) _ _)).
  reflexivity.
Defined.

Lemma banner_occurs (n : string) : occurs_in n (banner n).
Proof. exists "------ ", " ------". reflexivity. Qed.

(** C9: whenever a child is started, the event just before is the print of
    the banner ["------ <name> ------"] of the entry it is started in, and
    that line contains the entry's name.  In particular, when the run raises,
    its log ends with the banner of the failing directory, the start of its
    formatter and the non-zero exit. *)
Theorem fmt_banner_before_formatter (w : World) :
  (forall t1 a c t2,
     trace (fmt w) = t1 ++ Popen a c :: t2 ->
     exists n t0,
       In n (map fst (scandir w packages)) /\
       c = absolute w ["packages"; n] /\
       t1 = t0 ++ [Print ("------ " ++ n ++ " ------")] /\
       occurs_in n ("------ " ++ n ++ " ------")) /\
  (forall x,
     outcome (fmt w) = Raise x ->
     exists n t0,
       In n (map fst (scandir w packages)) /\
       x = CalledProcessError (rc w ["packages"; n]) cmd /\
       rc w ["packages"; n] <> 0%Z /\
       trace (fmt w) =
         t0 ++ [ Print ("------ " ++ n ++ " ------");
                 Popen cmd (absolute w ["packages"; n]);
                 Exited (absolute w ["packages"; n]) (rc w ["packages"; n]) ]).
Proof.
  rewrite fmt_loop.
  destruct (loop_shape w (glob_star w packages)) as (ds & rest & Hf & Ht & Ho).
  assert (Hds : forall d, In d ds ->
            exists n, In n (map fst (scandir w packages)) /\
                      d = ["packages"; n]).
  { intros d Hd.
    assert (Hs : In d (filter (is_dir w) (glob_star w packages)))
      by (rewrite Hf; apply in_or_app; left; exact Hd).
    apply filter_In in Hs as [Hg _]. apply glob_star_child in Hg. exact Hg. }
  split.
  - intros t1 a c t2 H. rewrite Ht in H.
    apply attempts_split in H as (ds1 & d & ds2 & -> & -> & -> & -> & ->).
    destruct (Hds d) as (n & Hn & ->); [apply in_or_app; right; left; reflexivity|].
    exists n, (flat_map (attempt w) ds1).
    split; [exact Hn|]. split; [reflexivity|]. split; [reflexivity|].
    apply banner_occurs.
  - intros x Hx.
    destruct Ho as [(Ho & _) | (ds' & e & -> & _ & Hr & Ho)];
      rewrite Ho in Hx; [discriminate|]. injection Hx as <-.
    destruct (Hds e) as (n & Hn & ->); [apply in_or_app; right; left; reflexivity|].
    exists n, (flat_map (attempt w) ds').
    split; [exact Hn|]. split; [reflexivity|]. split; [exact Hr|].
    rewrite Ht, flat_map_app. reflexivity.
Qed.

Lemma fmt_banner_before_formatter_witness :
  outcome (fmt world_b_fails) = Raise (CalledProcessError 2 cmd) /\
  exists n t0,
    In n (map fst (scandir world_b_fails packages)) /\
    CalledProcessError 2 cmd
      = CalledProcessError (rc world_b_fails ["packages"; n]) cmd /\
    rc world_b_fails ["packages"; n] <> 0%Z /\
    trace (fmt world_b_fails) =
      t0 ++ [ Print ("------ " ++ n ++ " ------");
              Popen cmd (absolute world_b_fails ["packages"; n]);
              Exited (absolute world_b_fails ["packages"; n])
                     (rc world_b_fails ["packages"; n]) ].
Proof.
  split; [reflexivity|].
  apply (proj2 (fmt_banner_before_formatter world_b_fails)).
  reflexivity.
Defined.

(** C10: a directory the loop reaches whose formatter ends with a non-zero
    return code, negative (ended by a signal) or positive, makes the run
    raise [CalledProcessError] with that code, and its exit is the last
    event of the log. *)
Theorem fmt_raises_on_any_nonzero (w : World) (pre post : list Path) (e : Path) :
  glob_star w packages = pre ++ e :: post ->
  passes w pre ->
  is_dir w e = true ->
  (rc w e < 0 \/ 0 < rc w e)%Z ->
  outcome (fmt w) = Raise (CalledProcessError (rc w e) cmd) /\
  exists t, trace (fmt w) = t ++ [Exited (absolute w e) (rc w e)].
Proof.
  intros Hg Hp Hd Hr.
  assert (Hne : rc w e <> 0%Z) by lia.
  rewrite fmt_loop, Hg, (loop_stops _ _ _ _ Hp Hd Hne).
  split; [reflexivity|].
  exists (flat_map (attempt w) (filter (is_dir w) pre)
            ++ [Print (banner (name e)); Popen cmd (absolute w e)]).
  unfold trace; simpl. rewrite <- app_assoc. reflexivity.
Qed.

Lemma fmt_raises_on_any_nonzero_witness :
  rc world_b_killed ["packages"; "botbuilder"] = (-15)%Z /\
  outcome (fmt world_b_killed) = Raise (CalledProcessError (-15) cmd) /\
  exists t,
    trace (fmt world_b_killed) =
      t ++ [Exited (checkout ++ ["packages"; "botbuilder"]) (-15)].
Proof.
  split; [reflexivity|].
  apply (fmt_raises_on_any_nonzero world_b_killed
           [["packages"; "ai"]; ["packages"; "README.md"]]
           [["packages"; "openai"]] ["packages"; "botbuilder"]).
  - reflexivity.
  - intros d [<-|[<-|[]]] _; reflexivity.
  - reflexivity.
  - left. reflexivity.
Defined.

End FmtFacts.

(* ================================================================= *)
(** * The claims about the activity-type set *)

Section ActivityTypeClaims.
Import ActivityTypes.

(** C2: the validator accepts a string exactly when it is one of the
    eighteen literals of [ActivityType]: every literal is accepted, every
    other string is rejected. *)
Theorem validate_iff_activity_type (v : string) :
  (validate v = true <-> is_activity_type v) /\
  (In v ActivityType -> validate v = true) /\
  (~ In v ActivityType -> validate v = false) /\
  List.length ActivityType = 18%nat.
Proof.
  unfold validate. split; [|split; [|split]].
  - rewrite literal_accepts_In. symmetry. apply is_activity_type_In.
  - apply literal_accepts_In.
  - intros Hn. destruct (literal_accepts ActivityType v) eqn:H; [|reflexivity].
    apply literal_accepts_In in H. contradiction.
  - reflexivity.
Qed.

Lemma validate_iff_activity_type_witness :
  validate "invokeResponse" = true /\ validate "Message" = false.
Proof.
  split.
  - apply (proj1 (proj2 (validate_iff_activity_type "invokeResponse"))).
    simpl. tauto.
  - apply (proj1 (proj2 (proj2 (validate_iff_activity_type "Message")))).
    simpl. intuition discriminate.
Defined.

(** C7: ["message"], ["typing"], ["event"] and ["invoke"] are members of
    [ActivityType]. *)
Theorem examples_in_ActivityType :
  In "message" ActivityType /\ In "typing" ActivityType /\
  In "event" ActivityType /\ In "invoke" ActivityType.
Proof. unfold ActivityType. simpl. tauto. Qed.

(** C8: [ActivityType] has exactly 18 literals, no two of them equal. *)
Theorem ActivityType_18_distinct :
  List.length ActivityType = 18%nat /\ NoDup ActivityType.
Proof.
  split; [reflexivity|]. unfold ActivityType. solve_distinct.
Qed.

End ActivityTypeClaims.

(* ================================================================= *)
(** * Further properties of the format runner *)

Section FmtRuns.
Import Fmt.

Lemma filter_all (A : Type) (f : A -> bool) (l : list A) :
  (forall x, In x l -> f x = true) -> filter f l = l.
Proof.
  intros H. apply forallb_filter_id, forallb_forall, H.
Qed.

Lemma subdirs_passes (w : World) :
  (forall d, In d (subdirs w) -> rc w d = 0%Z) ->
  passes w (glob_star w packages).
Proof.
  intros H d Hin Hd. apply H, subdirs_In. split; assumption.
Qed.

(** X1: when the formatter returns zero in every directory of [./packages], the
    run returns normally and its log is one attempt (banner, start, zero
    exit) per directory, in listing order: every directory is formatted, and
    in the order [glob] yields them. *)
Theorem fmt_all_succeed (w : World) :
  (forall d, In d (subdirs w) -> rc w d = 0%Z) ->
  fmt w = (flat_map (attempt w) (subdirs w), Return tt) /\
  started (trace (fmt w)) = map (absolute w) (subdirs w).
Proof.
  intros H. apply subdirs_passes in H.
  rewrite fmt_loop, (loop_all_pass _ _ H). split; [reflexivity|].
  unfold trace; simpl. apply started_attempts.
Qed.

Lemma fmt_all_succeed_witness :
  started (trace (fmt world_clean)) =
    [ checkout ++ ["packages"; "ai"];
      checkout ++ ["packages"; "botbuilder"];
      checkout ++ ["packages"; "openai"] ] /\
  outcome (fmt world_clean) = Return tt.
Proof.
  destruct (fmt_all_succeed world_clean) as [Hf Hs].
  - intros d _. reflexivity.
  - split; [exact Hs | rewrite Hf; reflexivity].
Defined.

(** X2: the run returns normally exactly when the formatter returns zero in
    every directory of [./packages]; one directory with a non-zero code,
    wherever it is listed, makes the run raise. *)
Theorem fmt_returns_iff_all_zero (w : World) :
  outcome (fmt w) = Return tt <->
  (forall d, In d (subdirs w) -> rc w d = 0%Z).
Proof.
  split.
  - intros Ho.
    destruct (loop_cases w (glob_star w packages))
      as [Hp | (pre & e & post & Hg & Hp & Hd & Hr)].
    + intros d Hin. apply subdirs_In in Hin as [Hin Hd]. apply Hp; assumption.
    + rewrite fmt_loop, Hg, (loop_stops _ _ _ _ Hp Hd Hr) in Ho. discriminate.
  - intros H. rewrite (proj1 (fmt_all_succeed w H)). reflexivity.
Qed.

(** X3: the first directory in listing order whose formatter returns non-zero
    decides the run: the log is the attempts on the directories before it
    and on it, the exception carries its code, and, names being distinct, no
    child is started in any directory listed after it, whatever the
    formatter would return there. *)
Theorem fmt_first_failure (w : World) (pre post : list Path) (e : Path) :
  subdirs w = pre ++ e :: post ->
  (forall d, In d pre -> rc w d = 0%Z) ->
  rc w e <> 0%Z ->
  fmt w = (flat_map (attempt w) pre ++ attempt w e,
           Raise (CalledProcessError (rc w e) cmd)) /\
  (distinct_names w ->
   forall d, In d post -> ~ In (absolute w d) (started (trace (fmt w)))).
Proof.
  intros Hs Hpre Hr.
  assert (Hdir : forall d, In d (pre ++ e :: post) -> is_dir w d = true).
  { intros d Hin. rewrite <- Hs in Hin. apply subdirs_In in Hin. tauto. }
  assert (Hfmt : fmt w = (flat_map (attempt w) pre ++ attempt w e,
                          Raise (CalledProcessError (rc w e) cmd))).
  { rewrite fmt_subdirs, Hs, loop_stops; trivial.
    - rewrite filter_all; [reflexivity|].
      intros d Hin. apply Hdir, in_or_app. left. exact Hin.
    - intros d Hin _. apply Hpre, Hin.
    - apply Hdir, in_or_app. right. left. reflexivity. }
  split; [exact Hfmt|].
  intros Hw d Hd Hin. rewrite Hfmt in Hin. unfold trace in Hin; simpl in Hin.
  rewrite started_app, started_attempts in Hin. simpl in Hin.
  apply subdirs_NoDup in Hw. rewrite Hs in Hw.
  apply in_app_or in Hin as [Hin|[Hin|[]]].
  - apply in_map_iff in Hin as (d' & Heq & Hin).
    apply absolute_inj in Heq. subst d'.
    apply in_split in Hin as (l1 & l2 & ->).
    rewrite <- app_assoc in Hw. simpl in Hw.
    apply NoDup_remove_2 in Hw. apply Hw.
    apply in_or_app. right. apply in_or_app. right. right. exact Hd.
  - apply absolute_inj in Hin. subst d.
    apply NoDup_remove_2 in Hw. apply Hw. apply in_or_app. right. exact Hd.
Qed.

Lemma fmt_first_failure_witness :
  subdirs world_a_fails =
    [] ++ ["packages"; "ai"]
       :: [ ["packages"; "botbuilder"]; ["packages"; "openai"] ] /\
  fmt world_a_fails =
    ([ Print "------ ai ------";
       Popen cmd (checkout ++ ["packages"; "ai"]);
       Exited (checkout ++ ["packages"; "ai"]) 1 ],
     Raise (CalledProcessError 1 cmd)) /\
  ~ In (checkout ++ ["packages"; "openai"])
       (started (trace (fmt world_a_fails))).
Proof.
  destruct (fmt_first_failure world_a_fails []
              [ ["packages"; "botbuilder"]; ["packages"; "openai"] ]
              ["packages"; "ai"]) as [Hf Hpost].
  - reflexivity.
  - intros d [].
  - discriminate.
  - split; [reflexivity|]. split; [exact Hf|].
    apply (Hpost ltac:(unfold distinct_names; simpl; solve_distinct)
             ["packages"; "openai"]).
    simpl; auto.
Defined.

Lemma scandir_not_dir (w : World) (p : Path) :
  is_dir w p = false -> scandir w p = [].
Proof.
  unfold is_dir, scandir.
  destruct (resolve (tree w) p) as [[|entries]|]; [reflexivity | discriminate | reflexivity].
Qed.

(** X4: when [./packages] is not a directory (it is missing, or it is a file),
    the run does not fail: it returns normally, having printed nothing and
    started no child. *)
Theorem fmt_without_packages (w : World) :
  is_dir w packages = false -> fmt w = ([], Return tt).
Proof.
  intros H. rewrite fmt_loop. unfold glob_star.
  rewrite (scandir_not_dir _ _ H). reflexivity.
Qed.

Lemma fmt_without_packages_witness :
  is_dir world_no_packages packages = false /\
  fmt world_no_packages = ([], Return tt) /\
  is_dir world_packages_is_file packages = false /\
  fmt world_packages_is_file = ([], Return tt).
Proof.
  split; [reflexivity|].
  split; [apply (fmt_without_packages world_no_packages); reflexivity|].
  split; [reflexivity|].
  apply (fmt_without_packages world_packages_is_file); reflexivity.
Defined.

(** ** What the run depends on *)

Lemma resolve_app (t : Node) (p q : Path) :
  resolve t (p ++ q) =
  match resolve t p with
  | Some x => resolve x q
  | None => None
  end.
Proof.
  revert t. induction p as [|n p IH]; intros t; [reflexivity|].
  simpl. destruct t as [|entries]; [reflexivity|].
  destruct (assoc n entries); [apply IH | reflexivity].
Qed.

Lemma kind_of_assoc (n : string) (entries : list (string * Node)) :
  kind_of n (map (fun entry => (fst entry, is_Dir (snd entry))) entries) =
  match assoc n entries with
  | Some (Dir _) => true
  | _ => false
  end.
Proof.
  induction entries as [|[m x] entries IH]; [reflexivity|].
  simpl. destruct (String.eqb n m); [destruct x; reflexivity | exact IH].
Qed.

(** [is_dir] of a child of [./packages] is the kind listed for its name. *)
Lemma is_dir_child (w : World) (n : string) :
  is_dir w (packages ++ [n]) = kind_of n (listing w).
Proof.
  unfold listing. rewrite kind_of_assoc.
  unfold is_dir, scandir. rewrite resolve_app.
  destruct (resolve (tree w) packages) as [[|entries]|]; try reflexivity.
  simpl. destruct (assoc n entries) as [[|?]|]; reflexivity.
Qed.

Lemma glob_star_listing (w : World) :
  glob_star w packages = map (fun l => packages ++ [fst l]) (listing w).
Proof.
  unfold glob_star, listing. rewrite map_map. reflexivity.
Qed.

Lemma for_each_ext (A : Type) (xs : list A) (f g : A -> IO unit) :
  (forall x, In x xs -> f x = g x) -> for_each xs f = for_each xs g.
Proof.
  induction xs as [|x xs IH]; intros H; [reflexivity|].
  simpl. rewrite (H x (or_introl eq_refl)), IH; [reflexivity|].
  intros y Hy. apply H. right. exact Hy.
Qed.

(** X5: the run depends on nothing but the working directory, the names and
    kinds of the immediate entries of [./packages], and what the fixed
    command returns: two worlds that agree on these give the same log and the
    same outcome, whatever the packages hold inside, whatever lies beside
    [./packages], and whatever any other command would return. *)
Theorem fmt_depends_on_listing_only (w1 w2 : World) :
  getcwd w1 = getcwd w2 ->
  listing w1 = listing w2 ->
  (forall c, exec w1 cmd c = exec w2 cmd c) ->
  fmt w1 = fmt w2.
Proof.
  intros Hc Hl He. rewrite !fmt_loop. unfold loop.
  rewrite !glob_star_listing, <- Hl.
  apply for_each_ext. intros e Hin.
  apply in_map_iff in Hin as ([n k] & <- & _). simpl fst.
  unfold fmt_entry, path_is_dir, path_absolute, subprocess_run, syscall,
    absolute.
  simpl fault. simpl world.
  rewrite !is_dir_child, <- Hl, <- Hc. unfold bind, ret, emit; simpl.
  rewrite He. reflexivity.
Qed.

Lemma fmt_depends_on_listing_only_witness :
  tree world_b_fails <> tree world_other_content /\
  fmt world_b_fails = fmt world_other_content.
Proof.
  split; [discriminate|].
  apply (fmt_depends_on_listing_only world_b_fails world_other_content);
    reflexivity.
Defined.

(** ** Order and output *)

Lemma printed_attempts (w : World) (ds : list Path) :
  printed (flat_map (attempt w) ds) = map (fun d => banner (name d)) ds.
Proof.
  induction ds as [|d ds IH]; [reflexivity|]. simpl. rewrite IH. reflexivity.
Qed.

(** X6: the children are started in listing order, without gaps: the working
    directories used are those of an initial segment of the directories of
    [./packages], all of them when the run returns normally; and the lines
    printed are exactly the banners of those same directories, one per child
    started and in the same order. *)
Theorem fmt_in_listing_order (w : World) :
  exists ds rest,
    subdirs w = ds ++ rest /\
    started (trace (fmt w)) = map (absolute w) ds /\
    printed (trace (fmt w)) = map (fun d => banner (name d)) ds /\
    (outcome (fmt w) = Return tt -> rest = []).
Proof.
  rewrite fmt_loop.
  destruct (loop_shape w (glob_star w packages))
    as (ds & rest & Hf & Ht & Ho).
  exists ds, rest. rewrite Ht.
  split; [exact Hf|]. split; [apply started_attempts|].
  split; [apply printed_attempts|].
  intros Hret.
  destruct Ho as [(_ & Hrest & _) | (ds' & e & _ & _ & _ & Ho)];
    [exact Hrest | rewrite Ho in Hret; discriminate].
Qed.

Lemma list_ascii_of_append (a b : string) :
  list_ascii_of_string (a ++ b) =
  list_ascii_of_string a ++ list_ascii_of_string b.
Proof.
  induction a as [|c a IH]; [reflexivity|]. simpl. rewrite IH. reflexivity.
Qed.

Lemma append_inv_tail (a b s : string) :
  (a ++ s)%string = (b ++ s)%string -> a = b.
Proof.
  intros H. apply (f_equal list_ascii_of_string) in H.
  rewrite !list_ascii_of_append in H. apply app_inv_tail in H.
  rewrite <- (string_of_list_ascii_of_string a),
          <- (string_of_list_ascii_of_string b), H.
  reflexivity.
Qed.

Lemma banner_inj (n m : string) : banner n = banner m -> n = m.
Proof.
  unfold banner. intros H. simpl in H. injection H as H.
  apply append_inv_tail in H. exact H.
Qed.

Lemma NoDup_map_on (A B : Type) (f : A -> B) (l : list A) :
  (forall x y, In x l -> In y l -> f x = f y -> x = y) ->
  NoDup l -> NoDup (map f l).
Proof.
  intros Hinj Hnd. induction Hnd as [|x l Hx _ IH]; simpl; constructor.
  - intros Hin. apply in_map_iff in Hin as (y & Heq & Hy).
    assert (y = x) by (apply Hinj; simpl; auto). subst y. exact (Hx Hy).
  - apply IH. intros a b Ha Hb. apply Hinj; right; assumption.
Qed.

(** X7: when the names in [./packages] are distinct, no line is printed twice:
    each line of the output stands for one directory. *)
Theorem fmt_banners_distinct (w : World) :
  distinct_names w -> NoDup (printed (trace (fmt w))).
Proof.
  intros Hw. rewrite fmt_loop.
  destruct (loop_shape w (glob_star w packages)) as (ds & rest & Hf & Ht & _).
  rewrite Ht, printed_attempts.
  assert (Hsub : forall d, In d ds -> In d (glob_star w packages)).
  { intros d Hd.
    assert (Hs : In d (filter (is_dir w) (glob_star w packages)))
      by (rewrite Hf; apply in_or_app; left; exact Hd).
    apply filter_In in Hs. tauto. }
  apply NoDup_map_on.
  - intros x y Hx Hy Heq. apply banner_inj in Heq.
    apply Hsub, glob_star_child in Hx as (n & _ & ->).
    apply Hsub, glob_star_child in Hy as (m & _ & ->).
    rewrite !name_child in Heq. subst m. reflexivity.
  - apply subdirs_NoDup in Hw. unfold subdirs in Hw. rewrite Hf in Hw.
    apply NoDup_app_remove_r in Hw. exact Hw.
Qed.

Lemma fmt_banners_distinct_witness :
  printed (trace (fmt world_clean)) =
    [ "------ ai ------"; "------ botbuilder ------"; "------ openai ------" ] /\
  NoDup (printed (trace (fmt world_clean))).
Proof.
  split; [reflexivity|].
  apply (fmt_banners_distinct world_clean).
  unfold distinct_names; simpl; solve_distinct.
Defined.

End FmtRuns.

(* ================================================================= *)
(** * A further property of the activity-type set *)

Section ActivityTypeShape.
Import ActivityTypes.

(** X8: every literal of [ActivityType] is a lower camel-case word: it is not
    empty, starts with a lower-case ASCII letter and holds ASCII letters
    only (no digit, space, dot, dash or underscore). *)
Theorem ActivityType_camel_case (v : string) :
  In v ActivityType -> camel_case_word v = true.
Proof.
  unfold ActivityType. simpl. intros H.
  repeat (destruct H as [<-|H]; [reflexivity|]). contradiction.
Qed.

Lemma ActivityType_camel_case_witness :
  In "endOfConversation" ActivityType /\
  camel_case_word "endOfConversation" = true.
Proof.
  assert (H : In "endOfConversation" ActivityType) by (simpl; tauto).
  split; [exact H | apply (ActivityType_camel_case _ H)].
Defined.

End ActivityTypeShape.
